(** * rx-angular: the in-memory ISR cache handler and the RxState service

    A shallow embedding of
      - libs/isr/server/src/cache-handlers/in-memory-cache-handler.ts
      - libs/state/src/lib/rx-state.service.ts
    together with the properties proved about them.

    JavaScript objects used as records are finite maps from field names to
    values ([gmap string value]); a call that may throw returns a [result];
    a method that mutates [this] takes the object and returns the updated one. *)

From Stdlib Require Import ZArith String.
From stdpp Require Import base option gmap strings list.

Local Open Scope string_scope.

(** ** JavaScript values and completion records *)

Module JS.

(** A value a state field or a stream emission can hold.  Numbers are the
    integer-valued ones plus [NaN]; objects are plain records. *)
#[warnings="-register-all"]
Inductive value :=
| VUndefined
| VNull
| VBool (b : bool)
| VNum (n : Z)
| VNaN
| VStr (s : string)
| VObj (fields : gmap string value).

(** A state object [T], or a slice [Partial<T>] of one. *)
Abbreviation record := (gmap string value).

(** What a [throw] carries: the message of the [Error]. *)
Definition error := string.

(** Outcome of calling a function: it returns or it throws. *)
Inductive result (A : Type) :=
| Ok (a : A)
| Throw (e : error).
Global Arguments Ok {A} a.
Global Arguments Throw {A} e.

(** An argument as a function with a loose signature sees it at run time.
    [O] is the kind of object and [F] the kind of function the parameter is
    declared to take; the other constructors are what a caller can pass
    all the same. *)
Inductive dyn (O F : Type) :=
| Undefined
| Null
| Boolean (b : bool)
| Str (s : string)
| Object (o : O)
| Function (f : F).
Global Arguments Undefined {O F}.
Global Arguments Null {O F}.
Global Arguments Boolean {O F} b.
Global Arguments Str {O F} s.
Global Arguments Object {O F} o.
Global Arguments Function {O F} f.

(** [x === undefined] *)
Definition is_undefined {O F} (x : dyn O F) : bool :=
  match x with Undefined => true | _ => false end.

(** Truthiness, as the condition of an [if] or an operand of [&&] sees it. *)
Definition truthy {O F} (x : dyn O F) : bool :=
  match x with
  | Undefined | Null => false
  | Boolean b => b
  | Str s => negb (String.eqb s "")
  | Object _ | Function _ => true
  end.

End JS.

(** ** libs/isr/server/src/cache-handlers/in-memory-cache-handler.ts *)

Module InMemoryCacheHandler.

(** [CacheISRConfig], with the two fields [defaultCacheISRConfig] sets. *)
Record CacheISRConfig := {
  revalidate : option Z;
  buildId : option string
}.

Definition defaultCacheISRConfig : CacheISRConfig :=
  {| revalidate := None; buildId := None |}.

Record CacheData := {
  html : string;
  options : CacheISRConfig;
  createdAt : Z
}.

(** The handler's only field, [cache = new Map<string, CacheData>()]. *)
Record t := { cache : gmap string CacheData }.

Definition new : t := {| cache := ∅ |}.

(** A promise settles once: [resolve] and [reject] act on a pending promise
    only, so of two calls made by one executor the first one wins. *)
Inductive Promise (A : Type) :=
| Pending
| Resolved (a : A)
| Rejected (reason : string).
Global Arguments Pending {A}.
Global Arguments Resolved {A} a.
Global Arguments Rejected {A} reason.

Definition resolve {A} (a : A) (p : Promise A) : Promise A :=
  match p with Pending => Resolved a | _ => p end.

Definition reject {A} (reason : string) (p : Promise A) : Promise A :=
  match p with Pending => Rejected reason | _ => p end.

(** [add(url, html, config = defaultCacheISRConfig)]; [now] is the reading
    of [Date.now()] and [None] an omitted [config]. *)
Definition add (url html : string) (config : option CacheISRConfig)
    (now : Z) (h : t) : t * Promise unit :=
  let config := default defaultCacheISRConfig config in
  let cacheData := {| html := html; options := config; createdAt := now |} in
  let h := {| cache := <[url := cacheData]> (cache h) |} in
  (h, resolve tt Pending).

(** [get(url)]: the executor calls [resolve] when the url is present and
    then [reject] in every case. *)
Definition get (url : string) (h : t) : Promise CacheData :=
  let p := Pending in
  let p := match cache h !! url with
           | Some d => resolve d p
           | None => p
           end in
  reject "This url does not exist in cache!" p.

(** [getByRegExp(regex)]; [test] is [regex.test] for a regular expression
    without the [g] or [y] flag, whose answer depends on the key alone.  The
    keys are visited in the order the map lists them; the finite map keeps
    no insertion order, so the order of the result is not modelled. *)
Definition getByRegExp (test : string → bool) (h : t) : Promise (list string) :=
  let result := filter (λ key, Is_true (test key)) (map_to_list (cache h)).*1 in
  resolve result Pending.

(** [getAll()]: the cached urls; their order is not modelled. *)
Definition getAll (h : t) : Promise (list string) :=
  resolve (map_to_list (cache h)).*1 Pending.

Definition has (url : string) (h : t) : Promise bool :=
  resolve (bool_decide (is_Some (cache h !! url))) Pending.

(** [delete(url)] resolves to whether the url was present. *)
Definition delete (url : string) (h : t) : t * Promise bool :=
  ({| cache := base.delete url (cache h) |},
   resolve (bool_decide (is_Some (cache h !! url))) Pending).

Definition clearCache (h : t) : t * Promise bool :=
  ({| cache := ∅ |}, resolve true Pending).

End InMemoryCacheHandler.

(** ** The parts of RxJS the service uses *)

Module Rx.
Import JS.

(** What an observable delivers to a subscriber. *)
Inductive notification (A : Type) :=
| Next (a : A)
| Error (e : error)
| Complete.
Global Arguments Next {A} a.
Global Arguments Error {A} e.
Global Arguments Complete {A}.

(** Where the notifications of a stream originate: an observable the caller
    made, or the result of [toObservable] on a signal or on a value that
    is no signal at all. *)
Inductive producer :=
| Stream (id : nat)
| fromSignal (id : nat)
| fromNonSignal.

Section Operators.
(** [E] is what the callbacks of a pipeline read at the moment they are
    invoked, [W] the outside world their side effects act on. *)
Context {E W : Type}.

(** A stateless operator, as the function that turns one upstream
    notification into the downstream one. *)
Definition OperatorFunction (A B : Type) : Type :=
  E → W → notification A → W * notification B.

Record Observable (A : Type) := {
  source : producer;
  operators : OperatorFunction value A
}.
Global Arguments source {A} _.
Global Arguments operators {A} _.

(** The observable the caller passes in. *)
Definition observable (p : producer) : Observable value :=
  {| source := p; operators := λ _ w n, (w, n) |}.

(** [o.pipe(op)] *)
Definition pipe {A B} (o : Observable A) (op : OperatorFunction A B)
    : Observable B :=
  {| source := source o;
     operators := λ e w n, let '(w', m) := operators o e w n in op e w' m |}.

(** [map(project)]: a [project] that throws turns the value into an
    error notification. *)
Definition map {A B} (project : E → A → result B) : OperatorFunction A B :=
  λ e w n,
    (w, match n with
        | Next a => match project e a with
                    | Ok b => Next b
                    | Throw err => Error err
                    end
        | Error err => Error err
        | Complete => Complete
        end).

(** [tap(fn)]: [fn] runs on every value; the value passes through
    unless [fn] throws. *)
Definition tap {A} (fn : A → W → W * result unit) : OperatorFunction A A :=
  λ _ w n,
    match n with
    | Next a => let '(w', r) := fn a w in
                (w', match r with
                     | Ok _ => Next a
                     | Throw err => Error err
                     end)
    | _ => (w, n)
    end.

(** [catchError((e) => EMPTY)]: an upstream error is replaced by the
    completion of [EMPTY]. *)
Definition catchError_EMPTY {A} : OperatorFunction A A :=
  λ _ w n,
    (w, match n with
        | Error _ => Complete
        | _ => n
        end).

(** A subscription to an observable; [closed] once the observable has
    completed or failed. *)
Record Subscriber (A : Type) := {
  observed : Observable A;
  closed : bool
}.
Global Arguments observed {A} _.
Global Arguments closed {A} _.

Definition subscribe_to {A} (o : Observable A) : Subscriber A :=
  {| observed := o; closed := false |}.

Definition close {A} (s : Subscriber A) : Subscriber A :=
  {| observed := observed s; closed := true |}.

End Operators.
Global Arguments OperatorFunction : clear implicits.
Global Arguments Observable : clear implicits.
Global Arguments Subscriber : clear implicits.

End Rx.

(** ** @rx-angular/state/selections and the Angular interop, by their contracts *)

Module Selections.
Import JS Rx.

(** Modelled from the spec: [isKeyOf] of @rx-angular/state/selections is not
    among the sources.  Overload resolution asks whether the argument is a
    key name (section 4.5); a key name is a string.  As a type guard it
    hands back the key it found. *)
Definition isKeyOf {O F} (k : dyn O F) : option string :=
  match k with
  | Str s => Some s
  | _ => None
  end.

(** Modelled from the spec: [safePluck] of @rx-angular/state/selections is
    not among the sources.  It reads the value at a key path of the state
    object (section 4.5); a path that is not populated yields "no value"
    instead of raising (section 7).  The service only calls it with a
    non-empty path. *)
Fixpoint safePluck (stateObject : value) (keys : list string) : value :=
  match keys with
  | [] => stateObject
  | k :: keys =>
      match stateObject with
      | VObj fields =>
          match fields !! k with
          | Some v => safePluck v keys
          | None => VUndefined
          end
      | _ => VUndefined
      end
  end.

Definition AccumulationFn : Type := record → record → record.

(** Modelled from the spec: the default merge function of
    @rx-angular/state/selections is not among the sources.  It is the
    shallow field overwrite of section 3: the fields the slice names take
    the slice's values, the other fields keep theirs. *)
Definition defaultAccumulator : AccumulationFn :=
  λ st sl, sl ∪ st.

(** Life of the accumulator's connection: created, subscribed by the
    container, stopped for good by a failed source, or torn down. *)
Inductive connection :=
| Idle
| Connected
| Failed (e : error)
| Disconnected.

Section Streams.
Context {W : Type}.

(** Modelled from the spec: [createAccumulationObservable] of
    @rx-angular/state/selections is not among the sources.  Section 4.1:
    the accumulator owns the current snapshot ([state], an empty record
    until a slice arrives) and the merge function, merges each slice it
    is handed synchronously and republishes the merged snapshot on a
    cached output stream ([emitted], oldest first), and owns one
    subscription per registered slice stream. *)
Record Accumulator := {
  state : record;
  accumulatorFn : AccumulationFn;
  slices : list (Subscriber record W record);
  connected : connection;
  emitted : list record
}.

Definition createAccumulationObservable : Accumulator :=
  {| state := ∅; accumulatorFn := defaultAccumulator; slices := [];
     connected := Idle; emitted := [] |}.

(** [setMergeFunction]: replaces the merge function for the slices that
    follow; does not re-apply history. *)
Definition nextAccumulator (accumulatorFn : AccumulationFn)
    (acc : Accumulator) : Accumulator :=
  {| state := state acc; accumulatorFn := accumulatorFn;
     slices := slices acc; connected := connected acc;
     emitted := emitted acc |}.

(** [applyPatch]: the synchronous merge of one slice, which emits the new
    snapshot.  Outside the connected phase nothing accumulates. *)
Definition nextSlice (stateSlice : record) (acc : Accumulator)
    : Accumulator :=
  match connected acc with
  | Connected =>
      let newState := accumulatorFn acc (state acc) stateSlice in
      {| state := newState; accumulatorFn := accumulatorFn acc;
         slices := slices acc; connected := Connected;
         emitted := emitted acc ++ [newState] |}
  | _ => acc
  end.

(** [registerPatchStream]: the stream joins the owned subscriptions. *)
Definition nextSliceObservable (stateObservable : Observable record W record)
    (acc : Accumulator) : Accumulator :=
  {| state := state acc; accumulatorFn := accumulatorFn acc;
     slices := slices acc ++ [subscribe_to stateObservable];
     connected := connected acc; emitted := emitted acc |}.

Definition with_slices (l : list (Subscriber record W record))
    (acc : Accumulator) : Accumulator :=
  {| state := state acc; accumulatorFn := accumulatorFn acc;
     slices := l; connected := connected acc; emitted := emitted acc |}.

Definition with_connected (c : connection) (acc : Accumulator)
    : Accumulator :=
  {| state := state acc; accumulatorFn := accumulatorFn acc;
     slices := slices acc; connected := c; emitted := emitted acc |}.

(** [accumulator.subscribe()] and the teardown of what it returns. *)
Definition acc_subscribe (acc : Accumulator) : Accumulator :=
  match connected acc with
  | Idle => with_connected Connected acc
  | _ => acc
  end.

Definition acc_unsubscribe (acc : Accumulator) : Accumulator :=
  with_connected Disconnected acc.

(** The [i]-th registered slice stream receives the notification [n] from
    its producer.  Every emission is merged exactly like [nextSlice]; a
    failure is fatal, accumulation stops (section 7); a completion ends
    that one subscription. *)
Definition acc_deliver (i : nat) (n : notification value)
    (acc : Accumulator) (w : W) : Accumulator * W :=
  match connected acc with
  | Connected =>
      match slices acc !! i with
      | Some s =>
          if closed s then (acc, w)
          else
            let '(w', out) := operators (observed s) (state acc) w n in
            match out with
            | Next stateSlice => (nextSlice stateSlice acc, w')
            | Error e => (with_connected (Failed e) acc, w')
            | Complete =>
                (with_slices (<[i := close s]> (slices acc)) acc, w')
            end
      | None => (acc, w)
      end
  | _ => (acc, w)
  end.

(** The cached output stream replays its latest snapshot, if there is
    one, to a subscriber the moment it subscribes. *)
Definition replayed (acc : Accumulator) : list value :=
  match last (emitted acc) with
  | Some s => [VObj s]
  | None => []
  end.

(** Modelled from the spec: [createSideEffectObservable] of
    @rx-angular/state/selections is not among the sources.  Section 4.2:
    the runner owns the registered effect streams, subscribes to all of
    them while it is active and discards their values; a registration that
    completes ends alone.  What isolates a failing stream is the swallowing
    [hold] puts on it: an error that does reach the runner ends the runner,
    and with it every registered effect. *)
Record SideEffects := {
  effects : list (Subscriber record W value);
  active : bool
}.

Definition createSideEffectObservable : SideEffects :=
  {| effects := []; active := false |}.

Definition nextEffectObservable (effect : Observable record W value)
    (eff : SideEffects) : SideEffects :=
  {| effects := effects eff ++ [subscribe_to effect];
     active := active eff |}.

Definition eff_subscribe (eff : SideEffects) : SideEffects :=
  {| effects := effects eff; active := true |}.

Definition eff_unsubscribe (eff : SideEffects) : SideEffects :=
  {| effects := effects eff; active := false |}.

(** The [i]-th registered effect stream receives the notification [n]
    from its producer; [st] is the state its callbacks would read. *)
Definition eff_deliver (i : nat) (n : notification value) (st : record)
    (eff : SideEffects) (w : W) : SideEffects * W :=
  if active eff then
    match effects eff !! i with
    | Some s =>
        if closed s then (eff, w)
        else
          let '(w', out) := operators (observed s) st w n in
          match out with
          | Next _ => (eff, w')
          | Complete =>
              ({| effects := <[i := close s]> (effects eff);
                  active := active eff |}, w')
          | Error _ => ({| effects := effects eff; active := false |}, w')
          end
    | None => (eff, w)
    end
  else (eff, w).

End Streams.
Global Arguments Accumulator : clear implicits.
Global Arguments SideEffects : clear implicits.

(** A stage of a [select] pipeline, by what it hands downstream in the
    moment of subscription given what its upstream hands it in that
    moment: [map(f)] maps the burst, [startWith(x)] puts [x] in front,
    a stage that defers its values hands on nothing. *)
Definition SelectStage : Type := list value → list value.

(** Suppression of repeated values: a value passes unless the comparison
    [same] of the view equates it with the value that passed last. *)
Fixpoint distinct_after (same : value → value → bool) (prev : value)
    (vs : list value) : list value :=
  match vs with
  | [] => []
  | v :: vs =>
      if same prev v then distinct_after same prev vs
      else v :: distinct_after same v vs
  end.

Definition distinctUntilChanged (same : value → value → bool)
    (vs : list value) : list value :=
  match vs with
  | [] => []
  | v :: vs => v :: distinct_after same v vs
  end.

(** Modelled from the spec: [select] of @rx-angular/state/selections is not
    among the sources.  Section 4.3: [pipe(...stages)] applies the stages
    in order to the whole-snapshot view and keeps the view distinct.  This
    is what a new subscriber receives synchronously. *)
Definition select (same : value → value → bool) (stages : list SelectStage)
    (upstream : list value) : list value :=
  distinctUntilChanged same (fold_left (λ vs stage, stage vs) stages upstream).

(** A derived cell: its current value, if it has one. *)
Record Signal := { current : option value }.

Record ToSignalOptions := { requireSync : bool }.

(** Modelled from the spec: [toSignal] of @angular/core/rxjs-interop is a
    collaborator outside the sources.  Section 6: a derived cell is
    constructed from a stream plus an option to require a synchronous
    initial value, raising a configuration error if none is available when
    required.  [sync] is what the stream delivers in the moment of
    subscription. *)
Definition toSignal (sync : list value) (opts : ToSignalOptions)
    : result Signal :=
  match last sync with
  | Some v => Ok {| current := Some v |}
  | None =>
      if requireSync opts
      then Throw "toSignal() called with requireSync but Observable did not emit synchronously."
      else Ok {| current := None |}
  end.

End Selections.

(** ** libs/state/src/lib/rx-state.service.ts *)

Module RxStateService.
Import JS Rx Selections.

Section RxState.
Context {W : Type}.

(** [ProjectStateFn<T>] and [ProjectValueFn<T, K>].  The old state they
    are handed is a JavaScript value, whatever the caller passes. *)
Definition ProjectStateFn : Type := value → result record.
Definition ProjectValueFn : Type := value → result value.

(** [ProjectStateReducer<T, V>] and [ProjectValueReducer<T, K, V>] *)
Definition ProjectStateReducer : Type := value → value → result record.
Definition ProjectValueReducer : Type := value → value → result value.

(** A side-effect function acts on the outside world and may throw. *)
Definition SideEffectFn : Type := value → W → W * result unit.

(** The objects and functions [connect] tells apart at run time. *)
Inductive object :=
| plain (fields : record)
| rx (o : producer).

Inductive callable :=
| signal (id : nat)
| reducer (f : ProjectStateReducer).

Definition isObservable {F} (x : dyn object F) : option producer :=
  match x with
  | Object (rx o) => Some o
  | _ => None
  end.

Definition isSignal {O} (x : dyn O callable) : option nat :=
  match x with
  | Function (signal id) => Some id
  | _ => None
  end.

(** [toObservable(x as Signal)]: made without a check that [x] is a
    signal. *)
Definition toObservable {O} (x : dyn O callable) : producer :=
  match x with
  | Function (signal id) => fromSignal id
  | _ => fromNonSignal
  end.

(** [typeof x === 'function'], handing back the function. *)
Definition as_function {O F} (x : dyn O F) : option F :=
  match x with
  | Function f => Some f
  | _ => None
  end.

(** [typeof x === 'object'], handing back the fields the object brings
    to a merge: those of the record, none for [null]. *)
Definition as_object {F} (x : dyn record F) : option record :=
  match x with
  | Object fields => Some fields
  | Null => Some ∅
  | _ => None
  end.

(** [stateReducer(oldState, v)] for whatever was stored as
    [stateReducer]: calling what is not a function throws. *)
Definition call_reducer {O} (stateReducer : dyn O callable)
    (oldState v : value) : result record :=
  match stateReducer with
  | Function (reducer f) => f oldState v
  | _ => Throw "TypeError: stateReducer is not a function"
  end.

(** An emission read as a slice [Partial<T>]: the fields of the record
    it is; a value that is no record brings no field to a merge. *)
Definition as_slice (v : value) : record :=
  match v with
  | VObj fields => fields
  | _ => ∅
  end.

Record RxState := {
  subscription_closed : bool;
  accumulator : Accumulator W;
  effectObservable : SideEffects W
}.

Definition with_accumulator (f : Accumulator W → Accumulator W)
    (this : RxState) : RxState :=
  {| subscription_closed := subscription_closed this;
     accumulator := f (accumulator this);
     effectObservable := effectObservable this |}.

Definition with_effectObservable (f : SideEffects W → SideEffects W)
    (this : RxState) : RxState :=
  {| subscription_closed := subscription_closed this;
     accumulator := accumulator this;
     effectObservable := f (effectObservable this) |}.

(** [subscribe()]: connects the accumulator and the side-effect runner. *)
Definition subscribe (this : RxState) : RxState :=
  with_effectObservable eff_subscribe (with_accumulator acc_subscribe this).

(** The field initialisers and the constructor, which subscribes. *)
Definition new : RxState :=
  subscribe
    {| subscription_closed := false;
       accumulator := createAccumulationObservable;
       effectObservable := createSideEffectObservable |}.

(** [ngOnDestroy()]: [this.subscription.unsubscribe()], which tears down
    what [subscribe()] returned unless it is closed already. *)
Definition ngOnDestroy (this : RxState) : RxState :=
  if subscription_closed this then this
  else
    {| subscription_closed := true;
       accumulator := acc_unsubscribe (accumulator this);
       effectObservable := eff_unsubscribe (effectObservable this) |}.

Definition setAccumulator (accumulatorFn : AccumulationFn)
    (this : RxState) : RxState :=
  with_accumulator (nextAccumulator accumulatorFn) this.

(** The body of [get(...keys)], on the [this.accumulator.state] it
    reads. *)
Definition get_of (st : record) (keys : list string) : value :=
  let hasStateAnyKeys := bool_decide (0 < size st) in
  match keys with
  | _ :: _ => safePluck (VObj st) keys
  | [] => if hasStateAnyKeys then VObj st else VUndefined
  end.

Definition get (keys : list string) (this : RxState) : value :=
  get_of (state (accumulator this)) keys.

(** [set(keyOrStateOrProjectState, stateOrSliceProjectFn?)] *)
Definition set (keyOrStateOrProjectState : dyn record ProjectStateFn)
    (stateOrSliceProjectFn : dyn record ProjectValueFn)
    (this : RxState) : RxState * result unit :=
  match as_object keyOrStateOrProjectState,
        is_undefined stateOrSliceProjectFn with
  | Some slice, true => (with_accumulator (nextSlice slice) this, Ok tt)
  | _, _ =>
  match as_function keyOrStateOrProjectState,
        is_undefined stateOrSliceProjectFn with
  | Some projectState, true =>
      match projectState (VObj (state (accumulator this))) with
      | Ok slice => (with_accumulator (nextSlice slice) this, Ok tt)
      | Throw e => (this, Throw e)
      end
  | _, _ =>
  match isKeyOf keyOrStateOrProjectState,
        as_function stateOrSliceProjectFn with
  | Some key, Some projectSlice =>
      match projectSlice (VObj (state (accumulator this))) with
      | Ok v =>
          (with_accumulator (nextSlice (<[key := v]> ∅)) this, Ok tt)
      | Throw e => (this, Throw e)
      end
  | _, _ => (this, Throw "wrong params passed to set")
  end end end.

(** [connect(keyOrInputOrSlice$, projectOrSlices$?, projectValueFn?)] *)
Definition connect (keyOrInputOrSlice : dyn object callable)
    (projectOrSlices : dyn object callable)
    (projectValueFn : dyn record ProjectValueReducer)
    (this : RxState) : RxState * result unit :=
  let inputOrSlice : option producer :=
    match isKeyOf keyOrInputOrSlice with
    | None =>
        match isObservable keyOrInputOrSlice with
        | Some o => Some o
        | None => Some (toObservable keyOrInputOrSlice)
        end
    | Some _ => None
    end in
  let key : option string :=
    match inputOrSlice, isKeyOf keyOrInputOrSlice with
    | None, Some k => Some k
    | _, _ => None
    end in
  match is_undefined projectValueFn, is_undefined projectOrSlices,
        inputOrSlice with
  | true, true, Some input =>
      (with_accumulator
         (nextSliceObservable
            (pipe (observable input) (map (λ _ v, Ok (as_slice v)))))
         this, Ok tt)
  | _, _, _ =>
  let slices : option producer :=
    if truthy projectOrSlices then
      match isObservable projectOrSlices with
      | Some o => Some o
      | None =>
          match isSignal projectOrSlices with
          | Some _ => Some (toObservable projectOrSlices)
          | None => None
          end
      end
    else None in
  let stateReducer : option (dyn object callable) :=
    if truthy projectOrSlices then
      match isObservable projectOrSlices, isSignal projectOrSlices with
      | None, None => Some projectOrSlices
      | _, _ => None
      end
    else None in
  match inputOrSlice, is_undefined projectValueFn, stateReducer with
  | Some input, true, Some stateReducer =>
      let slice :=
        pipe (observable input)
          (map (λ st v, call_reducer stateReducer (get_of st []) v)) in
      (with_accumulator (nextSliceObservable slice) this, Ok tt)
  | _, _, _ =>
  let key_and_slices : option (string * producer) :=
    match key, slices with
    | Some k, Some s => if String.eqb k "" then None else Some (k, s)
    | _, _ => None
    end in
  match is_undefined projectValueFn, key_and_slices with
  | true, Some (key, slices) =>
      let slice :=
        pipe (observable slices) (map (λ _ v, Ok (<[key := v]> ∅))) in
      (with_accumulator (nextSliceObservable slice) this, Ok tt)
  | _, _ =>
  match as_function projectValueFn, key_and_slices with
  | Some projectValueFn, Some (key, slices) =>
      let slice :=
        pipe (observable slices)
          (map (λ st v,
             match projectValueFn (get_of st []) v with
             | Ok x => Ok (<[key := x]> ∅)
             | Throw e => Throw e
             end)) in
      (with_accumulator (nextSliceObservable slice) this, Ok tt)
  | _, _ => (this, Throw "wrong params passed to connect")
  end end end end.

(** [select(...operators)], as what a new subscriber receives in the
    moment it subscribes. *)
Definition select (same : value → value → bool)
    (operators : list SelectStage) (this : RxState) : list value :=
  Selections.select same operators (replayed (accumulator this)).

(** [computedFrom(...operators)] *)
Definition computedFrom (same : value → value → bool)
    (operators : list SelectStage) (this : RxState) : result Signal :=
  toSignal (select same operators this) {| requireSync := true |}.

(** [hold(obsOrObsWithSideEffect, sideEffectFn?)] *)
Definition hold (obsOrObsWithSideEffect : producer)
    (sideEffectFn : dyn record SideEffectFn) (this : RxState) : RxState :=
  let sideEffect :=
    pipe (observable obsOrObsWithSideEffect) catchError_EMPTY in
  match as_function sideEffectFn with
  | Some sideEffectFn =>
      with_effectObservable
        (nextEffectObservable (pipe sideEffect (tap sideEffectFn))) this
  | None =>
      with_effectObservable (nextEffectObservable sideEffect) this
  end.

(** What reaches the container from outside between two calls: the
    producer behind the [i]-th slice stream, or behind the [i]-th effect
    stream, delivers a notification. *)
Inductive event :=
| SliceStream (i : nat) (n : notification value)
| EffectStream (i : nat) (n : notification value).

Definition react (ev : event) (sys : RxState * W) : RxState * W :=
  let '(this, w) := sys in
  match ev with
  | SliceStream i n =>
      let '(acc, w') := acc_deliver i n (accumulator this) w in
      (with_accumulator (λ _, acc) this, w')
  | EffectStream i n =>
      let '(eff, w') :=
        eff_deliver i n (state (accumulator this))
          (effectObservable this) w in
      (with_effectObservable (λ _, eff) this, w')
  end.

Definition run (evs : list event) (sys : RxState * W) : RxState * W :=
  fold_left (λ sys ev, react ev sys) evs sys.

End RxState.
Global Arguments RxState : clear implicits.
Global Arguments SideEffectFn : clear implicits.
Global Arguments event : clear implicits.

End RxStateService.

(** ** The statements of the specification, in its own words *)

Module Spec.
Import JS Rx Selections RxStateService.

(** The three valid forms of an update through [set]. *)
Inductive update :=
| SetSlice (slice : record)
| SetProject (project : ProjectStateFn)
| SetKey (key : string) (project : ProjectValueFn).

(** The patch an update induces on the current snapshot; a projection
    that throws induces none. *)
Definition induced_patch (u : update) (snapshot : record) : option record :=
  match u with
  | SetSlice slice => Some slice
  | SetProject project =>
      match project (VObj snapshot) with
      | Ok slice => Some slice
      | Throw _ => None
      end
  | SetKey key project =>
      match project (VObj snapshot) with
      | Ok v => Some {[ key := v ]}
      | Throw _ => None
      end
  end.

(** Iteratively folding the merge function over the induced patches, in
    call order. *)
Fixpoint fold_merge (merge : AccumulationFn) (us : list update)
    (snapshot : record) : record :=
  match us with
  | [] => snapshot
  | u :: us =>
      fold_merge merge us
        match induced_patch u snapshot with
        | Some patch => merge snapshot patch
        | None => snapshot
        end
  end.

Section Calls.
Context {W : Type}.

(** The call each form stands for, and a sequence of such calls each of
    which the caller lets return or throw. *)
Definition call_set (u : update) (this : RxState W) : RxState W * result unit :=
  match u with
  | SetSlice slice => set (Object slice) Undefined this
  | SetProject project => set (Function project) Undefined this
  | SetKey key project => set (Str key) (Function project) this
  end.

Definition call_sets (us : list update) (this : RxState W) : RxState W :=
  fold_left (λ this u, (call_set u this).1) us this.

End Calls.

(** The argument shapes the specification names valid.  For [set]: a
    partial record alone, a projection function alone, or a key plus a
    function. *)
Definition set_shape {O F O' F'} (a1 : dyn O F) (a2 : dyn O' F') : bool :=
  match a1, a2 with
  | Object _, Undefined => true
  | Function _, Undefined => true
  | Str _, Function _ => true
  | _, _ => false
  end.

Definition is_key {O F} (x : dyn O F) : bool :=
  match x with Str _ => true | _ => false end.

(** A stream: an observable or a derived value (signal). *)
Definition is_stream (x : dyn object callable) : bool :=
  match x with
  | Object (rx _) | Function (signal _) => true
  | _ => false
  end.

Definition is_reducer (x : dyn object callable) : bool :=
  match x with Function (reducer _) => true | _ => false end.

Definition is_function {O F} (x : dyn O F) : bool :=
  match x with Function _ => true | _ => false end.

(** For [connect]: [(source)], [(key, source)], [(source, reducer)] or
    [(key, source, reducer)]. *)
Definition connect_shape {O F} (a1 a2 : dyn object callable)
    (a3 : dyn O F) : bool :=
  is_stream a1 && is_undefined a2 && is_undefined a3
  || is_key a1 && is_stream a2 && is_undefined a3
  || is_stream a1 && is_reducer a2 && is_undefined a3
  || is_key a1 && is_stream a2 && is_function a3.

(** The stream an argument of [connect] stands for: the observable it is,
    or what [toObservable] makes of it. *)
Definition stream_of (x : dyn object callable) : producer :=
  match isObservable x with
  | Some o => o
  | None => toObservable x
  end.

(** [startWith(x)], the stage that seeds a view with an initial value. *)
Definition startWith (x : value) : SelectStage := cons x.

(** [s => ({count: s.count + 1})] *)
Definition increment_count : ProjectStateFn :=
  λ s,
    match s with
    | VObj fields =>
        match fields !! "count" with
        | Some (VNum n) => Ok {[ "count" := VNum (n + 1) ]}
        | _ => Ok {[ "count" := VNaN ]}
        end
    | _ => Throw "TypeError: Cannot read properties of undefined (reading 'count')"
    end.

(** A container with the stream [Stream 0] connected to the field [count]
    and an effect held on [Stream 1]. *)
Definition counting : RxState unit :=
  hold (Stream 1) Undefined
    (connect (Str "count") (Object (rx (Stream 0))) Undefined new).1.

(** A side-effect function that counts its calls in the world and throws. *)
Definition failing_effect : SideEffectFn nat :=
  λ _ calls, (S calls, Throw "effect failed").

End Spec.

(** ** Properties *)

Import JS Rx Selections RxStateService Spec.

(** *** The in-memory cache handler *)

(** C8. For every url, html and config: after [add(url, html, config)] has
    resolved, [has(url)] resolves to [true] and [get(url)] resolves to a
    record whose [html] is the html added and whose [options] is the config;
    after [delete(url)] has resolved, [get(url)] rejects with
    ['This url does not exist in cache!'] and [has(url)] resolves to
    [false]. *)
Theorem cache_add_then_delete (h : InMemoryCacheHandler.t)
    (url html : string) (config : InMemoryCacheHandler.CacheISRConfig)
    (now : Z) :
  let added := InMemoryCacheHandler.add url html (Some config) now h in
  let deleted := InMemoryCacheHandler.delete url h in
  added.2 = InMemoryCacheHandler.Resolved tt
  ∧ InMemoryCacheHandler.has url added.1 = InMemoryCacheHandler.Resolved true
  ∧ (∃ d, InMemoryCacheHandler.get url added.1 = InMemoryCacheHandler.Resolved d
          ∧ InMemoryCacheHandler.html d = html
          ∧ InMemoryCacheHandler.options d = config)
  ∧ (∃ b, deleted.2 = InMemoryCacheHandler.Resolved b)
  ∧ InMemoryCacheHandler.get url deleted.1
      = InMemoryCacheHandler.Rejected "This url does not exist in cache!"
  ∧ InMemoryCacheHandler.has url deleted.1 = InMemoryCacheHandler.Resolved false.
Proof.
  cbn [InMemoryCacheHandler.add InMemoryCacheHandler.delete fst snd].
  unfold InMemoryCacheHandler.has, InMemoryCacheHandler.get.
  cbn [InMemoryCacheHandler.cache InMemoryCacheHandler.resolve default].
  rewrite lookup_insert_eq, lookup_delete_eq.
  repeat split; by eexists.
Qed.

(** *** The accumulation through [set] *)

Section Accumulation.
Context {W : Type}.
Implicit Types (this : RxState W) (u : update) (us : list update).

(** One valid [set] call on a connected container merges the patch it
    induces, or leaves the state alone when its projection throws. *)
Lemma call_set_state u this :
  connected (accumulator this) = Connected →
  let this' := (call_set u this).1 in
  state (accumulator this')
    = match induced_patch u (state (accumulator this)) with
      | Some patch =>
          accumulatorFn (accumulator this) (state (accumulator this)) patch
      | None => state (accumulator this)
      end
  ∧ connected (accumulator this') = Connected
  ∧ accumulatorFn (accumulator this') = accumulatorFn (accumulator this).
Proof.
  intros Hc. destruct u as [slice|project|key project]; cbn.
  - unfold nextSlice. rewrite Hc. by cbn.
  - destruct (project _) as [slice|e]; cbn; [|done].
    unfold nextSlice. rewrite Hc. by cbn.
  - destruct (project _) as [v|e]; cbn; [|done].
    unfold nextSlice. rewrite Hc. by cbn.
Qed.

Lemma call_sets_state us : ∀ this,
  connected (accumulator this) = Connected →
  state (accumulator (call_sets us this))
    = fold_merge (accumulatorFn (accumulator this)) us
        (state (accumulator this)).
Proof.
  induction us as [|u us IH]; intros this Hc; [done|].
  destruct (call_set_state u this Hc) as (Hst & Hc' & Hfn).
  change (call_sets (u :: us) this) with (call_sets us (call_set u this).1).
  rewrite (IH _ Hc'), Hfn, Hst. done.
Qed.

(** C1. For every sequence of updates applied through [set], each in one of
    its three valid forms, the resulting snapshot is the merge function
    folded over the induced patches in call order, starting from the empty
    record that stands for "no value": for an overriding merge function and
    for the default one; [get()] reads that fold; and [set({count: 1})]
    followed by [set(s => ({count: s.count + 1}))] makes [get('count')]
    equal 2. *)
Theorem set_folds_merge (merge : AccumulationFn) us :
  state (accumulator (call_sets us (setAccumulator merge (@new W))))
    = fold_merge merge us ∅
  ∧ state (accumulator (call_sets us (@new W)))
    = fold_merge defaultAccumulator us ∅
  ∧ get [] (call_sets us (@new W))
    = get_of (fold_merge defaultAccumulator us ∅) []
  ∧ get ["count"]
      (call_sets [SetSlice {[ "count" := VNum 1 ]}; SetProject increment_count]
         (@new W))
    = VNum 2.
Proof.
  split_and!.
  - by rewrite call_sets_state.
  - by rewrite call_sets_state.
  - unfold get. by rewrite call_sets_state.
  - vm_compute. reflexivity.
Qed.

End Accumulation.

(** *** Teardown *)

Section Teardown.
Context {W : Type}.
Implicit Types (this : RxState W) (w : W) (ev : event) (evs : list event).

Lemma react_disconnected ev this w :
  connected (accumulator this) = Disconnected →
  active (effectObservable this) = false →
  react ev (this, w) = (this, w).
Proof.
  intros Hacc Heff. destruct this as [sub acc eff]; cbn in *.
  destruct ev as [i n|i n]; cbn.
  - unfold acc_deliver. by rewrite Hacc.
  - unfold eff_deliver. by rewrite Heff.
Qed.

Lemma run_disconnected evs this w :
  connected (accumulator this) = Disconnected →
  active (effectObservable this) = false →
  run evs (this, w) = (this, w).
Proof.
  intros Hacc Heff. induction evs as [|ev evs IH]; [done|].
  unfold run in *. cbn [fold_left].
  by rewrite react_disconnected.
Qed.

(** C2. After the teardown of a container, whatever the streams registered
    through [connect] or [hold] go on to deliver changes nothing: the
    container and the outside world stay as the teardown left them, so
    [get()] keeps returning what it returned at teardown; and a second
    teardown does nothing, the first one is the only one. *)
Theorem teardown_makes_streams_inert this w evs (keys : list string) :
  subscription_closed this = false →
  let torn := ngOnDestroy this in
  run evs (torn, w) = (torn, w)
  ∧ get keys (run evs (torn, w)).1 = get keys this
  ∧ ngOnDestroy torn = torn.
Proof.
  intros Hopen torn.
  assert (Htorn : torn
    = {| subscription_closed := true;
         accumulator := acc_unsubscribe (accumulator this);
         effectObservable := eff_unsubscribe (effectObservable this) |}).
  { unfold torn, ngOnDestroy. by rewrite Hopen. }
  assert (Hrun : run evs (torn, w) = (torn, w)).
  { apply run_disconnected; by rewrite Htorn. }
  split_and!.
  - exact Hrun.
  - rewrite Hrun. by rewrite Htorn.
  - by rewrite Htorn.
Qed.

End Teardown.

(** *** Side effects *)

Section SideEffects.
Context {W : Type}.
Implicit Types (this : RxState W) (w : W) (st : record) (obs : producer).

(** [hold] appends one subscription, to the stream it composed. *)
Lemma hold_registers obs (sideEffectFn : dyn record (SideEffectFn W)) this :
  let sideEffect := pipe (observable obs) catchError_EMPTY in
  effects (effectObservable (hold obs sideEffectFn this))
    = (effects (effectObservable this)
       ++ [subscribe_to
             match as_function sideEffectFn with
             | Some fn => pipe sideEffect (tap fn)
             | None => sideEffect
             end])%list
  ∧ active (effectObservable (hold obs sideEffectFn this))
    = active (effectObservable this)
  ∧ accumulator (hold obs sideEffectFn this) = accumulator this.
Proof. unfold hold. by destruct (as_function sideEffectFn). Qed.

(** Delivering to an effect stream leaves the accumulator alone. *)
Lemma react_effect_accumulator i n this w :
  accumulator (react (EffectStream i n) (this, w)).1 = accumulator this.
Proof. cbn. by destruct (eff_deliver _ _ _ _ _). Qed.

(** What an effect stream does to the world depends on the runner's
    activity, on that one registration and on the state it reads. *)
Lemma react_effect_world j n this this' w :
  active (effectObservable this) = active (effectObservable this') →
  effects (effectObservable this) !! j = effects (effectObservable this') !! j →
  accumulator this = accumulator this' →
  (react (EffectStream j n) (this, w)).2
  = (react (EffectStream j n) (this', w)).2.
Proof.
  intros Hact Heff Hacc. cbn. unfold eff_deliver.
  rewrite Hact, Heff, Hacc.
  destruct (active (effectObservable this')); [|done].
  destruct (effects (effectObservable this') !! j) as [s|]; [|done].
  destruct (closed s); [done|].
  by destruct (operators (observed s) _ w n) as [w1 [a|e'|]].
Qed.

(** [set] reads and writes the accumulator only. *)
Lemma set_depends_on_accumulator a1 a2 this this' :
  accumulator this = accumulator this' →
  (set a1 a2 this).2 = (set a1 a2 this').2
  ∧ accumulator (set a1 a2 this).1 = accumulator (set a1 a2 this').1.
Proof.
  intros Hacc. unfold set. rewrite Hacc.
  repeat (case_match; cbn [fst snd with_accumulator accumulator]);
    rewrite ?Hacc; done.
Qed.

(** C4. An error raised by a stream registered through [hold] is caught and
    discarded: what the composed effect stream hands on is a completion,
    not the error; no side effect runs; the accumulator, the runner and
    every other registered effect are as before and react as before; and
    later [set] calls behave as they would have without the error. *)
Theorem hold_swallows_stream_errors this w obs
    (sideEffectFn : dyn record (SideEffectFn W)) (e : error) st :
  let held := hold obs sideEffectFn this in
  let i := length (effects (effectObservable this)) in
  let after := react (EffectStream i (Error e)) (held, w) in
  (∃ s, effects (effectObservable held) !! i = Some s
        ∧ closed s = false
        ∧ operators (observed s) st w (Error e) = (w, Complete))
  ∧ after.2 = w
  ∧ accumulator after.1 = accumulator held
  ∧ active (effectObservable after.1) = active (effectObservable held)
  ∧ (∀ j, j ≠ i →
       effects (effectObservable after.1) !! j
       = effects (effectObservable held) !! j)
  ∧ (∀ j n w0, j ≠ i →
       (react (EffectStream j n) (after.1, w0)).2
       = (react (EffectStream j n) (held, w0)).2)
  ∧ (∀ a1 a2,
       (set a1 a2 after.1).2 = (set a1 a2 held).2
       ∧ accumulator (set a1 a2 after.1).1 = accumulator (set a1 a2 held).1).
Proof.
  intros held i after.
  destruct (hold_registers obs sideEffectFn this) as (Heffs & Hact & Hacc).
  fold held in Heffs, Hact, Hacc.
  set (o := match as_function sideEffectFn with
            | Some fn => pipe (pipe (observable obs) catchError_EMPTY) (tap fn)
            | None => pipe (observable obs) catchError_EMPTY
            end) in Heffs.
  assert (Hlook : effects (effectObservable held) !! i = Some (subscribe_to o)).
  { rewrite Heffs. by apply list_lookup_middle. }
  assert (Hswallow : ∀ st' w', operators o st' w' (Error e) = (w', Complete)).
  { intros st' w'. unfold o. by destruct (as_function sideEffectFn). }
  assert (Hafter : after.2 = w
    ∧ accumulator after.1 = accumulator held
    ∧ active (effectObservable after.1) = active (effectObservable held)
    ∧ (∀ j, j ≠ i →
         effects (effectObservable after.1) !! j
         = effects (effectObservable held) !! j)).
  { unfold after. cbn. unfold eff_deliver.
    destruct (active (effectObservable held)) eqn:Ha; [|by rewrite ?Ha].
    rewrite Hlook. cbn [closed subscribe_to observed].
    rewrite Hswallow. cbn. split_and!; try done.
    intros j Hj. by rewrite list_lookup_insert_ne. }
  destruct Hafter as (Hw & Hacc' & Hact' & Hothers).
  split_and!; try done.
  - exists (subscribe_to o). by rewrite Hlook, Hswallow.
  - intros j n w0 Hj. apply react_effect_world; auto.
  - intros a1 a2. by apply set_depends_on_accumulator.
Qed.

(** C9. In [hold(stream, sideEffectFn)] the error-swallowing wrapper sits
    upstream of the stage that invokes [sideEffectFn].  An error of the
    source stream comes out of the composed stream as a completion and
    [sideEffectFn] does not run; an exception that [sideEffectFn] throws on
    an emission comes out of the composed stream as an error, past the
    wrapper, and reaches the side-effect runner, which it ends: from then
    on no registered effect runs, whatever any held stream delivers. *)
Theorem hold_side_effect_errors_escape this w w' obs
    (sideEffectFn : SideEffectFn W) (v : value) (e : error) st :
  sideEffectFn v w = (w', Throw e) →
  active (effectObservable this) = true →
  let held := hold obs (Function sideEffectFn) this in
  let i := length (effects (effectObservable this)) in
  ∃ s, effects (effectObservable held) !! i = Some s
    ∧ observed s
      = pipe (pipe (observable obs) catchError_EMPTY) (tap sideEffectFn)
    ∧ (∀ e0 w0, operators (observed s) st w0 (Error e0) = (w0, Complete))
    ∧ operators (observed s) st w (Next v) = (w', Error e)
    ∧ react (EffectStream i (Next v)) (held, w)
      = (with_effectObservable
           (λ eff, {| effects := effects eff; active := false |}) held, w')
    ∧ (∀ j n w0,
         react (EffectStream j n)
           ((react (EffectStream i (Next v)) (held, w)).1, w0)
         = ((react (EffectStream i (Next v)) (held, w)).1, w0)).
Proof.
  intros Hthrow Hactive held i.
  destruct (hold_registers obs (Function sideEffectFn) this)
    as (Heffs & Hact & Hacc).
  fold held in Heffs, Hact, Hacc. cbn [as_function] in Heffs.
  assert (Hlook : effects (effectObservable held) !! i
    = Some (subscribe_to
              (pipe (pipe (observable obs) catchError_EMPTY)
                 (tap sideEffectFn)))).
  { rewrite Heffs. by apply list_lookup_middle. }
  clearbody held.
  assert (Hreact : react (EffectStream i (Next v)) (held, w)
    = (with_effectObservable
         (λ eff, {| effects := effects eff; active := false |}) held, w')).
  { unfold react, eff_deliver. rewrite Hact, Hactive, Hlook.
    cbn. by rewrite Hthrow. }
  eexists. split_and!.
  - exact Hlook.
  - done.
  - done.
  - cbn. by rewrite Hthrow.
  - exact Hreact.
  - intros j n w0. rewrite Hreact. cbn. by destruct held.
Qed.

End SideEffects.

(** *** Reading the state, and the streams registered through [connect] *)

Section Connect.
Context {W : Type}.
Implicit Types (this : RxState W) (w : W) (acc : Accumulator W).

(** C5, as the code has it.  [get()] returns the "no value" sentinel,
    neither a record nor an error, exactly while the snapshot has no
    field: before any patch has been applied, and still after patches
    that leave it without fields.  Once the snapshot has a field, [get()]
    returns the current snapshot. *)
Theorem get_is_absent_while_no_fields this :
  get [] (@new W) = VUndefined
  ∧ get [] this
    = if decide (state (accumulator this) = ∅) then VUndefined
      else VObj (state (accumulator this)).
Proof.
  split; [done|]. unfold get, get_of.
  destruct (decide (state (accumulator this) = ∅)) as [Hempty|Hfields].
  - by rewrite Hempty.
  - rewrite bool_decide_eq_true_2; [done|].
    apply map_size_non_empty_iff in Hfields. lia.
Qed.




End Connect.

(** *** Dispatch on the shape of the arguments *)

Section Dispatch.
Context {W : Type}.
Implicit Types (this : RxState W).

(** Where the dispatch does reject.  Among the arguments [dyn] expresses, a
    [set] call that matches none of the valid shapes raises
    ['wrong params passed to set'] and leaves the container as it was,
    unless it passes [null] alone; a [connect] call that matches none of
    the four valid shapes raises ['wrong params passed to connect'] and
    leaves the container as it was, unless its first argument is no key,
    it has no third argument, and its second argument is left out or is
    truthy and no stream. *)
Lemma wrong_params_are_rejected this :
  (∀ (a1 : dyn record ProjectStateFn) (a2 : dyn record ProjectValueFn),
     set_shape a1 a2 = false →
     ¬ (a1 = Null ∧ a2 = Undefined) →
     set a1 a2 this = (this, Throw "wrong params passed to set"))
  ∧ (∀ (a1 a2 : dyn object callable) (a3 : dyn record ProjectValueReducer),
       connect_shape a1 a2 a3 = false →
       ¬ (is_key a1 = false ∧ a3 = Undefined
          ∧ (a2 = Undefined ∨ truthy a2 = true ∧ is_stream a2 = false)) →
       connect a1 a2 a3 this
       = (this, Throw "wrong params passed to connect")).
Proof.
  split.
  - intros a1 a2 Hshape Hnull.
    destruct a1, a2; cbn in Hshape; try discriminate; try done.
    exfalso. by apply Hnull.
  - intros a1 a2 a3 Hshape Hloose.
    destruct a1 as [| |b1|k1|[r1|o1]|[s1|f1]],
             a2 as [| |[|]|k2|[r2|o2]|[s2|f2]], a3;
      cbn in Hshape; try discriminate; cbn;
      try (destruct (String.eqb k1 ""); done);
      try (destruct (String.eqb k2 "") eqn:Hk2; cbn; try done);
      try done;
      exfalso; apply Hloose; cbn; rewrite ?Hk2;
      (split_and!; [done|done|]); first [by left | by right].
Qed.

End Dispatch.

(** *** Derived values *)

Section Derived.
Context {W : Type}.
Implicit Types (this : RxState W).

Lemma distinctUntilChanged_nil same vs :
  distinctUntilChanged same vs = [] ↔ vs = [].
Proof. by destruct vs. Qed.

(** C7. [computedFrom(...operators)] requires that the composed selection
    delivers a value in the moment the derived value is created.  It raises
    the configuration error exactly when the selection delivers none; a
    derived value it does return has a value; on a container no patch was
    applied to the bare selection raises, and seeding it with
    [startWith] lets the call return. *)
Theorem computedFrom_requires_sync_value (same : value → value → bool)
    (operators : list SelectStage) this (x : value) :
  let composed :=
    fold_left (λ vs stage, stage vs) operators (replayed (accumulator this)) in
  let no_sync_value :=
    Throw "toSignal() called with requireSync but Observable did not emit synchronously." in
  (computedFrom same operators this = no_sync_value ↔ composed = [])
  ∧ (∀ sg, computedFrom same operators this = Ok sg → is_Some (current sg))
  ∧ computedFrom same [] (@new W) = no_sync_value
  ∧ computedFrom same [startWith x] (@new W) = Ok {| current := Some x |}.
Proof.
  intros composed no_sync_value.
  unfold computedFrom, toSignal, select, Selections.select. fold composed.
  cbn [requireSync].
  split_and!.
  - destruct (last _) as [v|] eqn:Hlast.
    + split; [done|]. intros Hnil. rewrite Hnil in Hlast. done.
    + split; [|done]. intros _.
      apply last_None in Hlast. by apply distinctUntilChanged_nil in Hlast.
  - intros sg. destruct (last _) as [v|]; [|done].
    intros [= <-]. by eexists.
  - done.
  - done.
Qed.

End Derived.

(** *** The theorems at concrete containers *)

(** C2 at [counting]: once torn down, an emission of the connected stream and
    one of the held stream leave [get()] as it was. *)
Lemma teardown_makes_streams_inert_witness :
  subscription_closed counting = false
  ∧ get []
      (run [SliceStream 0 (Next (VNum 5)); EffectStream 0 (Next VNull)]
         (ngOnDestroy counting, tt)).1
    = get [] counting.
Proof.
  split; [reflexivity|].
  apply (teardown_makes_streams_inert counting tt
           [SliceStream 0 (Next (VNum 5)); EffectStream 0 (Next VNull)] []).
  reflexivity.
Defined.

(** C9 at a fresh container: the exception of [failing_effect] comes out
    of the composed stream as an error. *)
Lemma hold_side_effect_errors_escape_witness :
  failing_effect (VNum 1) 0 = (1, Throw "effect failed")
  ∧ active (effectObservable (@new nat)) = true
  ∧ ∃ s, effects (effectObservable
                    (hold (Stream 0) (Function failing_effect) (@new nat))) !! 0
         = Some s
       ∧ operators (observed s) ∅ 0 (Next (VNum 1)) = (1, Error "effect failed").
Proof.
  split; [reflexivity|]. split; [reflexivity|].
  destruct (hold_side_effect_errors_escape (@new nat) 0 1 (Stream 0)
              failing_effect (VNum 1) "effect failed" ∅ eq_refl eq_refl)
    as (s & Hs & _ & _ & Hnext & _).
  exists s. split; [exact Hs | exact Hnext].
Defined.



(** At a fresh container a boolean alone is rejected by [set], a key alone
    by [connect], and so is [null] followed by a stream. *)
Lemma wrong_params_are_rejected_witness :
  set (Boolean true) Undefined (@new unit)
  = (new, Throw "wrong params passed to set")
  ∧ connect (Str "count") Undefined Undefined (@new unit)
    = (new, Throw "wrong params passed to connect")
  ∧ connect Null (Object (rx (Stream 0))) Undefined (@new unit)
    = (new, Throw "wrong params passed to connect").
Proof.
  split_and!.
  - apply (proj1 (wrong_params_are_rejected (@new unit))); [reflexivity|].
    intros [Hnull _]. discriminate Hnull.
  - apply (proj2 (wrong_params_are_rejected (@new unit))); [reflexivity|].
    intros (Hkey & _). discriminate Hkey.
  - apply (proj2 (wrong_params_are_rejected (@new unit))); [reflexivity|].
    intros (_ & _ & [Hundef | [Htruthy Hstream]]); discriminate.
Defined.

(** C3.  Not every call that matches none of the valid shapes raises a
    configuration error at the call site.  [connect(stream, true)] matches
    none of the four shapes of [connect]; the code stores [true] as the
    reducer without the [typeof] test it applies to [projectValueFn],
    registers the stream and returns, and the first emission of the stream
    then stops the accumulation with a type error.  [set(null)] matches no
    shape of [set] and returns as well, [typeof null] being ['object']. *)
Lemma loose_calls_are_accepted :
  set_shape (Null : dyn record ProjectStateFn)
    (Undefined : dyn record ProjectValueFn) = false
  ∧ (set Null Undefined (@new unit)).2 = Ok tt
  ∧ connect_shape (Object (rx (Stream 0))) (Boolean true)
      (Undefined : dyn record ProjectValueReducer) = false
  ∧ (connect (Object (rx (Stream 0))) (Boolean true) Undefined (@new unit)).2
    = Ok tt
  ∧ connected (accumulator
      (react (SliceStream 0 (Next (VNum 1)))
         ((connect (Object (rx (Stream 0))) (Boolean true) Undefined
             (@new unit)).1, tt)).1)
    = Failed "TypeError: stateReducer is not a function".
Proof. repeat split. Qed.

(** C5 as stated fails: after [set({})] a patch has been applied and
    emitted, and [get()] still returns the sentinel instead of the current
    snapshot, the empty record. *)
Lemma empty_patch_keeps_get_absent :
  let this := (set (Object ∅) Undefined (@new unit)).1 in
  emitted (accumulator this) = [∅]
  ∧ state (accumulator this) = ∅
  ∧ get [] this = VUndefined
  ∧ get [] this ≠ VObj (state (accumulator this)).
Proof. repeat split. discriminate. Qed.


(** ** Further properties of the in-memory cache handler *)

Section Cache.
Import InMemoryCacheHandler.
Implicit Types (h : t) (url html : string).

Lemma cached_urls h url :
  url ∈ (map_to_list (cache h)).*1 ↔ is_Some (cache h !! url).
Proof.
  rewrite list_elem_of_fmap. split.
  - intros [[k d] [-> Hin]]. apply elem_of_map_to_list in Hin. by eexists.
  - intros [d Hd]. exists (url, d). split; [done|].
    by apply elem_of_map_to_list.
Qed.

(** X1. [get(url)] never stays pending and agrees with [has(url)]: either
    the url is cached, [has] resolves to [true] and [get] resolves (the
    [reject] the executor calls afterwards is ignored), or it is not,
    [has] resolves to [false] and [get] rejects with
    ['This url does not exist in cache!']. *)
Theorem cache_get_agrees_with_has h url :
  (has url h = Resolved true ∧ ∃ d, get url h = Resolved d)
  ∨ (has url h = Resolved false
     ∧ get url h = Rejected "This url does not exist in cache!").
Proof.
  unfold has, get. destruct (cache h !! url) as [d|] eqn:Hd; cbn.
  - left. split; [done | by eexists].
  - right. by split.
Qed.

(** X2. The last [add] for a url wins: adding a url twice leaves the cache
    exactly as adding only the second time would, and [get] resolves to the
    record of the second call. *)
Theorem cache_add_overwrites h url html1 html2
    (config1 config2 : option CacheISRConfig) (now1 now2 : Z) :
  let twice := (add url html2 config2 now2 (add url html1 config1 now1 h).1).1 in
  twice = (add url html2 config2 now2 h).1
  ∧ get url twice
    = Resolved {| html := html2;
                  options := default defaultCacheISRConfig config2;
                  createdAt := now2 |}.
Proof.
  cbn. split.
  - by rewrite insert_insert_eq.
  - unfold get. cbn. by rewrite lookup_insert_eq.
Qed.

(** X3. [add] and [delete] touch their own url only: for any other url,
    [get] and [has] answer after the call what they answered before. *)
Theorem cache_other_urls_untouched h url url' html
    (config : option CacheISRConfig) (now : Z) :
  url' ≠ url →
  get url' (add url html config now h).1 = get url' h
  ∧ has url' (add url html config now h).1 = has url' h
  ∧ get url' (delete url h).1 = get url' h
  ∧ has url' (delete url h).1 = has url' h.
Proof.
  intros Hne. unfold get, has. cbn.
  rewrite lookup_insert_ne, lookup_delete_ne by done. done.
Qed.

(** X4. [delete(url)] resolves to what [has(url)] resolved to just before;
    deleting a url that is not cached leaves the cache as it is; and a
    second [delete] of the same url resolves to [false]. *)
Theorem cache_delete_reports_presence h url :
  (delete url h).2 = has url h
  ∧ (has url h = Resolved false → (delete url h).1 = h)
  ∧ (delete url (delete url h).1).2 = Resolved false.
Proof.
  split_and!.
  - done.
  - unfold has. cbn. intros [= Hhas].
    apply bool_decide_eq_false_1 in Hhas.
    destruct h as [c]; cbn in *. f_equal. apply delete_id.
    destruct (c !! url) eqn:Hc; [|done]. exfalso. apply Hhas. by eexists.
  - cbn. rewrite lookup_delete_eq.
    rewrite bool_decide_eq_false_2; [done|]. by intros [? ?].
Qed.

(** X5. Adding a url that is not cached and deleting it again gives back
    the cache there was, and the [delete] resolves to [true]. *)
Theorem cache_add_delete_round_trip h url html
    (config : option CacheISRConfig) (now : Z) :
  has url h = Resolved false →
  delete url (add url html config now h).1 = (h, Resolved true).
Proof.
  unfold has. cbn. intros [= Hhas]. apply bool_decide_eq_false_1 in Hhas.
  assert (Hnone : cache h !! url = None).
  { destruct (cache h !! url) eqn:Hc; [|done]. exfalso. apply Hhas. by eexists. }
  unfold delete. cbn. rewrite lookup_insert_eq.
  rewrite delete_insert_id by done.
  rewrite bool_decide_eq_true_2 by by eexists.
  by destruct h.
Qed.

(** X6. [clearCache()] resolves to [true] and empties the cache: afterwards
    [has] resolves to [false] and [get] rejects for every url, and [getAll]
    and [getByRegExp] resolve to the empty list. *)
Theorem cache_clear_empties h url (test : string → bool) :
  let cleared := clearCache h in
  cleared.2 = Resolved true
  ∧ has url cleared.1 = Resolved false
  ∧ get url cleared.1 = Rejected "This url does not exist in cache!"
  ∧ getAll cleared.1 = Resolved []
  ∧ getByRegExp test cleared.1 = Resolved [].
Proof.
  cbn. unfold has, get, getAll, getByRegExp. cbn.
  rewrite lookup_empty, map_to_list_empty. done.
Qed.

(** X7. [getAll()] resolves to the cached urls, each once: a url is in the
    list exactly when [has(url)] resolves to [true].  [getByRegExp(regex)]
    resolves to those of them the regular expression matches. *)
Theorem cache_listing_agrees_with_has h (test : string → bool) :
  ∃ all matching,
    getAll h = Resolved all
    ∧ getByRegExp test h = Resolved matching
    ∧ NoDup all
    ∧ NoDup matching
    ∧ (∀ url, url ∈ all ↔ has url h = Resolved true)
    ∧ (∀ url, url ∈ matching ↔ url ∈ all ∧ test url = true).
Proof.
  eexists _, _. split_and!; [done|done|..].
  - apply NoDup_fst_map_to_list.
  - apply NoDup_filter, NoDup_fst_map_to_list.
  - intros url. rewrite cached_urls. unfold has. cbn. split.
    + intros Hsome. by rewrite bool_decide_eq_true_2.
    + intros [= Hhas]. by apply bool_decide_eq_true_1 in Hhas.
  - intros url. rewrite list_elem_of_filter.
    rewrite Is_true_true. tauto.
Qed.

End Cache.

(** ** Further properties of the RxState service *)

Section Service.
Context {W : Type}.
Implicit Types (this : RxState W) (w : W) (k : string) (v : value).

(** X8. A projection function that throws makes [set] raise that very
    exception and leaves the container exactly as it was, in the
    function-alone form and in the key-plus-function form. *)
Theorem set_throwing_projection_changes_nothing this k
    (f : ProjectStateFn) (g : ProjectValueFn) (e1 e2 : error) :
  f (VObj (state (accumulator this))) = Throw e1 →
  g (VObj (state (accumulator this))) = Throw e2 →
  set (Function f) Undefined this = (this, Throw e1)
  ∧ set (Str k) (Function g) this = (this, Throw e2).
Proof. intros Hf Hg. unfold set. cbn. by rewrite Hf, Hg. Qed.

(** X9. The function forms of [set] are the record form applied to what
    the function makes of the current state object: [set(fn)] does what
    [set(fn(state))] does, and [set(key, fn)] what [set({[key]: fn(state)})]
    does, whatever the merge function. *)
Theorem set_function_forms_are_record_form this k
    (f : ProjectStateFn) (g : ProjectValueFn) (slice : record) v :
  f (VObj (state (accumulator this))) = Ok slice →
  g (VObj (state (accumulator this))) = Ok v →
  set (Function f) Undefined this = set (Object slice) Undefined this
  ∧ set (Str k) (Function g) this = set (Object {[ k := v ]}) Undefined this.
Proof. intros Hf Hg. unfold set. cbn. by rewrite Hf, Hg. Qed.

(** X10. With the default merge function on a connected container,
    [set(key, fn)] makes [get(key)] return what [fn] returned for the old
    state and leaves [get] of every other key as it was. *)
Theorem set_key_then_get this k (g : ProjectValueFn) v :
  connected (accumulator this) = Connected →
  accumulatorFn (accumulator this) = defaultAccumulator →
  g (VObj (state (accumulator this))) = Ok v →
  let after := set (Str k) (Function g) this in
  after.2 = Ok tt
  ∧ get [k] after.1 = v
  ∧ (∀ k', k' ≠ k → get [k'] after.1 = get [k'] this).
Proof.
  intros Hc Hfn Hg. unfold set. cbn. rewrite Hg. cbn.
  unfold get, nextSlice. rewrite Hc. cbn. rewrite Hfn.
  unfold defaultAccumulator. split_and!; [done|..].
  - by rewrite (lookup_union_Some_l _ _ _ v) by apply lookup_insert_eq.
  - intros k' Hne. rewrite lookup_union_r; [done|].
    rewrite lookup_insert_ne by done. apply lookup_empty.
Qed.

(** X11. A [connect] call does one of two things.  It raises
    ['wrong params passed to connect'], and no other exception, with the
    container untouched; or it returns after handing exactly one observable
    to the accumulator's [nextSliceObservable], with nothing else of the
    container changed.  The observable handed over is fed by the stream
    argument: the first argument unless that is a key, the second
    otherwise. *)
Theorem connect_is_one_registration this (a1 a2 : dyn object callable)
    (a3 : dyn record ProjectValueReducer) :
  match (connect a1 a2 a3 this).2 with
  | Ok _ =>
      ∃ o : Observable record W record,
        (connect a1 a2 a3 this).1
        = with_accumulator (nextSliceObservable o) this
        ∧ source o = if is_key a1 then stream_of a2 else stream_of a1
  | Throw e =>
      e = "wrong params passed to connect"
      ∧ (connect a1 a2 a3 this).1 = this
  end.
Proof.
  destruct a1 as [| |b1|k1|[r1|o1]|[s1|f1]],
           a2 as [| |[|]|k2|[r2|o2]|[s2|f2]], a3;
    cbn;
    try (destruct (String.eqb k1 ""); cbn);
    try (destruct (String.eqb k2 ""); cbn);
    first [done | by eexists].
Qed.



(** X14. The empty string is a key for [set] and none for [connect]:
    [connect('', ...)] raises ['wrong params passed to connect'] whatever the
    other arguments, a stream included, while [set('', fn)] returns. *)
Theorem empty_key_is_rejected_by_connect_only this
    (a2 : dyn object callable) (a3 : dyn record ProjectValueReducer) v :
  connect (Str "") a2 a3 this = (this, Throw "wrong params passed to connect")
  ∧ (set (Str "") (Function (λ _, Ok v)) this).2 = Ok tt.
Proof.
  split; [|done].
  destruct a2 as [| |[|]|k2|[r2|o2]|[s2|f2]], a3; cbn;
    try (destruct (String.eqb k2 ""); cbn); done.
Qed.


(** X16. [hold] with a second argument that is not a function holds the
    bare stream: whatever the stream delivers, nothing is run and the
    outside world stays as it is. *)
Theorem hold_without_function_runs_nothing this w obs
    (x : dyn record (SideEffectFn W)) (n : notification value) :
  is_function x = false →
  let i := length (effects (effectObservable this)) in
  hold obs x this = hold obs Undefined this
  ∧ (react (EffectStream i n) (hold obs x this, w)).2 = w.
Proof.
  intros Hx i.
  assert (Hnone : as_function x = None) by by destruct x.
  destruct (hold_registers obs x this) as (Heffs & Hact & Hacc).
  rewrite Hnone in Heffs. split.
  - unfold hold. by rewrite Hnone.
  - unfold react, eff_deliver.
    destruct (active (effectObservable (hold obs x this))); [|done].
    rewrite Heffs, list_lookup_middle by done. cbn.
    by destruct n.
Qed.

(** X17. [get] with a key path agrees with [get()]: while [get()] returns
    the "no value" sentinel, [get] of every path returns it too; and when
    [get()] returns a snapshot, [get(key)] is the field [key] of that
    snapshot, [undefined] if it has no such field. *)
Theorem get_path_agrees_with_get this :
  (get [] this = VUndefined → ∀ keys, get keys this = VUndefined)
  ∧ (∀ fields, get [] this = VObj fields →
       ∀ k, get [k] this = default VUndefined (fields !! k)).
Proof.
  unfold get, get_of. split.
  - case_bool_decide as Hsize; [done|]. intros _ keys.
    assert (Hempty : state (accumulator this) = ∅).
    { apply map_size_empty_iff. lia. }
    rewrite Hempty. destruct keys as [|k keys]; [done|].
    cbn. by rewrite lookup_empty.
  - intros fields. case_bool_decide; [|done]. intros [= <-] k.
    cbn. by destruct (state (accumulator this) !! k).
Qed.

End Service.

(** ** The further properties at concrete inputs *)

(** X3 for a cache holding ["/a"]: adding ["/b"] leaves [get("/a")] alone. *)
Lemma cache_other_urls_untouched_witness :
  let h := (InMemoryCacheHandler.add "/a" "<p>a</p>" None 1
              InMemoryCacheHandler.new).1 in
  "/a" ≠ "/b"
  ∧ InMemoryCacheHandler.get "/a"
      (InMemoryCacheHandler.add "/b" "<p>b</p>" None 2 h).1
    = InMemoryCacheHandler.get "/a" h.
Proof.
  intros h. assert (Hne : "/a" ≠ "/b") by discriminate.
  split; [exact Hne|].
  apply (cache_other_urls_untouched h "/b" "/a" "<p>b</p>" None 2 Hne).
Defined.

(** X5 for the empty cache. *)
Lemma cache_add_delete_round_trip_witness :
  InMemoryCacheHandler.has "/a" InMemoryCacheHandler.new
  = InMemoryCacheHandler.Resolved false
  ∧ InMemoryCacheHandler.delete "/a"
      (InMemoryCacheHandler.add "/a" "<p>a</p>" None 1
         InMemoryCacheHandler.new).1
    = (InMemoryCacheHandler.new, InMemoryCacheHandler.Resolved true).
Proof.
  split; [reflexivity|].
  apply (cache_add_delete_round_trip InMemoryCacheHandler.new "/a" "<p>a</p>"
           None 1).
  reflexivity.
Defined.

(** X8 on a fresh container, for projections that always throw. *)
Lemma set_throwing_projection_changes_nothing_witness :
  set (Function (λ _, Throw "no")) Undefined (@new unit) = (new, Throw "no")
  ∧ set (Str "count") (Function (λ _, Throw "never")) (@new unit)
    = (new, Throw "never").
Proof.
  apply (set_throwing_projection_changes_nothing (@new unit) "count"
           (λ _, Throw "no") (λ _, Throw "never") "no" "never");
    reflexivity.
Defined.

(** X9 on the container [counting], for [increment_count] and for a
    projection of the key [count]. *)
Lemma set_function_forms_are_record_form_witness :
  set (Function increment_count) Undefined counting
  = set (Object {[ "count" := VNaN ]}) Undefined counting
  ∧ set (Str "count") (Function (λ _, Ok (VNum 7))) counting
    = set (Object {[ "count" := VNum 7 ]}) Undefined counting.
Proof.
  apply (set_function_forms_are_record_form counting "count" increment_count
           (λ _, Ok (VNum 7)) {[ "count" := VNaN ]} (VNum 7));
    reflexivity.
Defined.

(** X10 on a fresh container. *)
Lemma set_key_then_get_witness :
  connected (accumulator (@new unit)) = Connected
  ∧ get ["count"] (set (Str "count") (Function (λ _, Ok (VNum 7))) (@new unit)).1
    = VNum 7.
Proof.
  split; [reflexivity|].
  apply (set_key_then_get (@new unit) "count" (λ _, Ok (VNum 7)) (VNum 7)
           eq_refl eq_refl eq_refl).
Defined.




(** X16 on a fresh container, for a string passed as the side-effect
    function. *)
Lemma hold_without_function_runs_nothing_witness :
  is_function (Str "log" : dyn record (SideEffectFn nat)) = false
  ∧ hold (Stream 0) (Str "log") (@new nat) = hold (Stream 0) Undefined (@new nat).
Proof.
  split; [reflexivity|].
  apply (hold_without_function_runs_nothing (@new nat) 0 (Stream 0) (Str "log")
           Complete eq_refl).
Defined.
